(** * DiscreteContactCheckTask: a task-composer node that checks a planned
      trajectory for discrete contacts.

    Shallow embedding of
    [tesseract_task_composer/src/nodes/discrete_contact_check_task.cpp].

    - C++ objects are records, a derived class holds its base as a field.
    - [throw std::runtime_error(msg)] is the [Throw] outcome of a constructor.
    - [runImpl] threads the caller's [TaskComposerInput] (a non-const
      reference in the source), the steady clock and the trace of external
      calls through a state monad; an out-of-range [input_keys_[0]] and a
      null-pointer dereference are undefined behaviour, the monad's failure.
    - Collaborators that live outside this translation unit are parameters
      of the sections below. They are functions that return: an exception or
      a null pointer from [getJointGroup], [getStateSolver],
      [getDiscreteContactManager] or the validator is not modelled, and the
      shared pointers [input.profiles] and [input.problem.env] are taken to
      be non-null. What is proved of an invocation that goes past the input
      check is proved under these assumptions. *)

From Stdlib Require Import ZArith String List Bool Lia.
From stdpp Require Import base option list strings gmap pretty.

Local Open Scope string_scope.
Local Open Scope list_scope.

(** ** Exceptions *)

Inductive exception : Type :=
| runtime_error (what : string).

Inductive result (A : Type) : Type :=
| Ok (a : A)
| Throw (e : exception).
Arguments Ok {A} a.
Arguments Throw {A} e.

Definition what (e : exception) : string :=
  match e with runtime_error m => m end.

(** ** The task node *)

(** Base class [TaskComposerTask]: the fields of the node's data model. *)
Record TaskComposerTask : Type := mkTaskComposerTask {
  name_ : string;
  is_conditional_ : bool;
  input_keys_ : list string
}.

(** Modelled from the spec: the base constructor
    [TaskComposerTask(name, is_conditional)], declared outside this file.
    It stores the name and the conditional flag and leaves [input_keys_]
    empty ("direct construction; stores a single input key" is then the
    [push_back] of the derived constructor). *)
Definition TaskComposerTask_ctor (name : string) (is_conditional : bool)
  : TaskComposerTask :=
  {| name_ := name; is_conditional_ := is_conditional; input_keys_ := [] |}.

(** [input_keys_.push_back(key)] *)
Definition push_back_input_key (key : string) (t : TaskComposerTask)
  : TaskComposerTask :=
  {| name_ := name_ t;
     is_conditional_ := is_conditional_ t;
     input_keys_ := input_keys_ t ++ [key] |}.

(** The derived class adds no data member. *)
Record DiscreteContactCheckTask : Type := mkDiscreteContactCheckTask {
  task_base : TaskComposerTask
}.

(** [DiscreteContactCheckTask::DiscreteContactCheckTask()] *)
Definition DiscreteContactCheckTask_default : DiscreteContactCheckTask :=
  {| task_base := TaskComposerTask_ctor "DiscreteContactCheckTask" true |}.

(** [DiscreteContactCheckTask(std::string name, std::string input_key,
    bool is_conditional)] *)
Definition DiscreteContactCheckTask_direct
    (name input_key : string) (is_conditional : bool)
  : DiscreteContactCheckTask :=
  {| task_base :=
       push_back_input_key input_key (TaskComposerTask_ctor name is_conditional) |}.

Definition missing_inputs_msg : string :=
  "DiscreteContactCheckTask, config missing 'inputs' entry".

Definition only_one_input_msg : string :=
  "DiscreteContactCheckTask, config 'inputs' entry currently only supports one input "
  ++ "key".

Section ConfigConstruction.
(** The declarative configuration and its parser belong to the base class
    [TaskComposerTask(name, config)], declared outside this file: the
    parser is a parameter, and may itself throw. *)
Context {YAMLNode PluginFactory : Type}.
Variable TaskComposerTask_from_config :
  string -> YAMLNode -> result TaskComposerTask.

(** [DiscreteContactCheckTask(std::string name, const YAML::Node& config,
    const TaskComposerPluginFactory&)] *)
Definition DiscreteContactCheckTask_from_config
    (name : string) (config : YAMLNode) (plugin_factory : PluginFactory)
  : result DiscreteContactCheckTask :=
  match TaskComposerTask_from_config name config with
  | Throw e => Throw e
  | Ok base =>
      if (length (input_keys_ base) =? 0)%nat then
        Throw (runtime_error missing_inputs_msg)
      else if (1 <? length (input_keys_ base))%nat then
        Throw (runtime_error only_one_input_msg)
      else Ok {| task_base := base |}
  end.

(** The nodes of this type that a program can build: one rule per
    constructor of the class. *)
Inductive Constructed : DiscreteContactCheckTask -> Prop :=
| Constructed_default :
    Constructed DiscreteContactCheckTask_default
| Constructed_direct name input_key is_conditional :
    Constructed (DiscreteContactCheckTask_direct name input_key is_conditional)
| Constructed_config name config plugin_factory t :
    DiscreteContactCheckTask_from_config name config plugin_factory = Ok t ->
    Constructed t.

(** The same without the default constructor. *)
Inductive ConstructedFromArguments : DiscreteContactCheckTask -> Prop :=
| FromArguments_direct name input_key is_conditional :
    ConstructedFromArguments
      (DiscreteContactCheckTask_direct name input_key is_conditional)
| FromArguments_config name config plugin_factory t :
    DiscreteContactCheckTask_from_config name config plugin_factory = Ok t ->
    ConstructedFromArguments t.
End ConfigConstruction.

(** ** Node equality *)

(** Modelled from the spec: [TaskComposerTask::operator==], declared outside
    this file. "Equality is structural: two nodes are equal iff same concrete
    type and same (name, is_conditional, input_keys)". *)
Definition TaskComposerTask_eq (lhs rhs : TaskComposerTask) : bool :=
  String.eqb (name_ lhs) (name_ rhs)
  && Bool.eqb (is_conditional_ lhs) (is_conditional_ rhs)
  && bool_decide (input_keys_ lhs = input_keys_ rhs).

(** [bool DiscreteContactCheckTask::operator==(const DiscreteContactCheckTask&)] *)
Definition DiscreteContactCheckTask_eq (lhs rhs : DiscreteContactCheckTask) : bool :=
  let equal := true in
  let equal := equal && TaskComposerTask_eq (task_base lhs) (task_base rhs) in
  equal.

(** [bool DiscreteContactCheckTask::operator!=(const DiscreteContactCheckTask&)] *)
Definition DiscreteContactCheckTask_ne (lhs rhs : DiscreteContactCheckTask) : bool :=
  negb (DiscreteContactCheckTask_eq lhs rhs).

(** ** Report equality *)

Section ReportEquality.
(** [DiscreteContactCheckTaskInfo] compares through the equality of its
    base class [TaskComposerNodeInfo], declared outside this file: both
    the base record and its [operator==] are parameters here. *)
Context {NodeInfo ContactResultMap : Type}.
Variable TaskComposerNodeInfo_eq : NodeInfo -> NodeInfo -> bool.

Record TaskInfo : Type := mkTaskInfo {
  info_base : NodeInfo;
  contact_results : list ContactResultMap
}.

(** [bool DiscreteContactCheckTaskInfo::operator==(const
    DiscreteContactCheckTaskInfo&)]; the comparison of [contact_results]
    is commented out in the source. *)
Definition DiscreteContactCheckTaskInfo_eq (lhs rhs : TaskInfo) : bool :=
  let equal := true in
  let equal := equal && TaskComposerNodeInfo_eq (info_base lhs) (info_base rhs) in
  equal.

(** [bool DiscreteContactCheckTaskInfo::operator!=(...)] *)
Definition DiscreteContactCheckTaskInfo_ne (lhs rhs : TaskInfo) : bool :=
  negb (DiscreteContactCheckTaskInfo_eq lhs rhs).
End ReportEquality.
Arguments TaskInfo : clear implicits.
Arguments mkTaskInfo {NodeInfo ContactResultMap} _ _.

(** ** Execution context, collaborators and reports *)

Section Run.
(** Opaque types of the collaborating libraries. [double] stands for the
    C++ floating-point type of contact distances: no arithmetic is done
    on it here. *)
Context {double StateSolver ContactManagerConfig ContactCheckConfig
         Instruction DiscreteContactManager : Type}.

Record ManipulatorInfo : Type := mkManipulatorInfo {
  manipulator : string;
  working_frame : string;
  tcp_frame : string
}.

Record ContactResult : Type := mkContactResult {
  link_names : string * string;
  distance : double
}.

(** An ordered map from a link pair to the contacts of that pair; the
    source iterates over it in order. *)
Definition ContactResultMap : Type :=
  list ((string * string) * list ContactResult).

Record ContactCheckProfile : Type := mkContactCheckProfile {
  config : ContactCheckConfig
}.

(** The instruction's own override, when it has one. *)
Definition ProfileOverrides : Type :=
  option (ContactCheckProfile -> ContactCheckProfile).

Record CompositeInstruction : Type := mkCompositeInstruction {
  ci_getProfile : string;
  ci_getProfileOverrides : ProfileOverrides;
  ci_getManipulatorInfo : ManipulatorInfo;
  ci_getDescription : string;
  ci_instructions : list Instruction
}.

(** [std::type_index] of the values a data store can hold. *)
Inductive type_index : Type :=
| typeid_CompositeInstruction
| typeid_other (type_name : string).

Definition type_index_eqb (a b : type_index) : bool :=
  match a, b with
  | typeid_CompositeInstruction, typeid_CompositeInstruction => true
  | typeid_other x, typeid_other y => String.eqb x y
  | _, _ => false
  end.

(** [tesseract_common::AnyPoly]: null, or a value with its dynamic type. *)
Inductive AnyPoly : Type :=
| AnyPoly_null
| AnyPoly_composite (ci : CompositeInstruction)
| AnyPoly_other (type_name : string).

Definition isNull (a : AnyPoly) : bool :=
  match a with AnyPoly_null => true | _ => false end.

(** [getType] is only called on a non-null value (short-circuit [||]);
    a null one reports the type of [void]. *)
Definition getType (a : AnyPoly) : type_index :=
  match a with
  | AnyPoly_null => typeid_other "void"
  | AnyPoly_composite _ => typeid_CompositeInstruction
  | AnyPoly_other n => typeid_other n
  end.

(** [as<CompositeInstruction>()]: defined only on a value of that type. *)
Definition as_CompositeInstruction (a : AnyPoly) : option CompositeInstruction :=
  match a with AnyPoly_composite ci => Some ci | _ => None end.

Record JointGroup : Type := mkJointGroup {
  getActiveLinkNames : list string
}.

Record Environment : Type := mkEnvironment {
  getJointGroup : string -> JointGroup;
  getStateSolver : StateSolver;
  getDiscreteContactManager : DiscreteContactManager
}.

Record TaskComposerProblem : Type := mkTaskComposerProblem {
  env : Environment;
  manip_info : ManipulatorInfo;
  composite_profile_remapping : gmap string (gmap string string)
}.

Record TaskComposerInput : Type := mkTaskComposerInput {
  problem : TaskComposerProblem;
  profiles : gmap string (gmap string ContactCheckProfile);
  data_storage : gmap string AnyPoly;
  aborted : bool
}.

(** Base class [TaskComposerNodeInfo]: the fields of the report that
    [runImpl] writes, and the node's name. [elapsed_time] counts ticks of
    the steady clock (the conversion to seconds is a change of unit). *)
Record TaskComposerNodeInfo : Type := mkTaskComposerNodeInfo {
  info_name : string;
  return_value : Z;
  message : string;
  elapsed_time : Z;
  info_env : option Environment
}.

Definition DiscreteContactCheckTaskInfo : Type :=
  TaskInfo TaskComposerNodeInfo ContactResultMap.

(** Modelled from the spec: the base constructor
    [TaskComposerNodeInfo(const TaskComposerNode&)], declared outside this
    file: "a fresh Report bound to this node's identity", return value 0
    ("not yet determined"), no message, elapsed time zero, no environment. *)
Definition TaskComposerNodeInfo_ctor (task : TaskComposerTask)
  : TaskComposerNodeInfo :=
  {| info_name := name_ task; return_value := 0; message := "";
     elapsed_time := 0; info_env := None |}.

(** [DiscreteContactCheckTaskInfo(const DiscreteContactCheckTask& task)];
    [contact_results] is default-initialised, an empty vector. *)
Definition DiscreteContactCheckTaskInfo_ctor (task : DiscreteContactCheckTask)
  : DiscreteContactCheckTaskInfo :=
  mkTaskInfo (TaskComposerNodeInfo_ctor (task_base task)) [].

(** Assignments to the members of [*info]. *)
Definition set_return_value (v : Z) (i : DiscreteContactCheckTaskInfo)
  : DiscreteContactCheckTaskInfo :=
  let b := info_base i in
  mkTaskInfo
    {| info_name := info_name b; return_value := v; message := message b;
       elapsed_time := elapsed_time b; info_env := info_env b |}
    (contact_results i).

Definition set_env (e : Environment) (i : DiscreteContactCheckTaskInfo)
  : DiscreteContactCheckTaskInfo :=
  let b := info_base i in
  mkTaskInfo
    {| info_name := info_name b; return_value := return_value b;
       message := message b; elapsed_time := elapsed_time b;
       info_env := Some e |}
    (contact_results i).

Definition set_message (m : string) (i : DiscreteContactCheckTaskInfo)
  : DiscreteContactCheckTaskInfo :=
  let b := info_base i in
  mkTaskInfo
    {| info_name := info_name b; return_value := return_value b;
       message := m; elapsed_time := elapsed_time b; info_env := info_env b |}
    (contact_results i).

Definition set_elapsed_time (t : Z) (i : DiscreteContactCheckTaskInfo)
  : DiscreteContactCheckTaskInfo :=
  let b := info_base i in
  mkTaskInfo
    {| info_name := info_name b; return_value := return_value b;
       message := message b; elapsed_time := t; info_env := info_env b |}
    (contact_results i).

Definition set_contact_results (c : list ContactResultMap)
    (i : DiscreteContactCheckTaskInfo) : DiscreteContactCheckTaskInfo :=
  mkTaskInfo (info_base i) c.


(** *** Collaborators *)

(** The interface of the collaborators [runImpl] uses. *)
Class Collaborators : Type := {
  (** [std::to_string(double)] *)
  to_string_double : double -> string;
  (** The member [contact_manager_config] of a [ContactCheckConfig]. *)
  contact_manager_config : ContactCheckConfig -> ContactManagerConfig;
  (** The value of a default-constructed [ContactCheckProfile]. *)
  ContactCheckProfile_default : ContactCheckProfile;
  (** The library-wide default profile name. *)
  DEFAULT_PROFILE_KEY : string;
  (** [ManipulatorInfo::getCombined(override)] *)
  getCombined : ManipulatorInfo -> ManipulatorInfo -> ManipulatorInfo;
  (** The two setters of the contact manager, on the node's own manager. *)
  setActiveCollisionObjects :
    list string -> DiscreteContactManager -> DiscreteContactManager;
  applyContactManagerConfig :
    ContactManagerConfig -> DiscreteContactManager -> DiscreteContactManager;
  (** The external validator [contactCheckProgram(contacts, manager,
      state_solver, program, config)]: its boolean result, and the contacts
      it stores in the out-parameter. *)
  contactCheckProgram :
    DiscreteContactManager -> StateSolver -> CompositeInstruction ->
    ContactCheckConfig -> bool * list ContactResultMap
}.
Context {collaborators : Collaborators}.

(** *** The profile resolver *)

(** Modelled from the spec: [getProfileString(ns, profile, remapping)],
    declared outside this file. Step 1: "if declaredProfileName is empty,
    substitute a library-wide default name". Step 2: "look up (nodeName,
    declaredProfileName) in remappingTable; if present, the mapped name
    replaces the declared one" (one level, the mapped name is not looked up
    again). *)
Definition getProfileString (ns profile : string)
    (profile_remapping : gmap string (gmap string string)) : string :=
  let results := if String.eqb profile "" then DEFAULT_PROFILE_KEY else profile in
  match profile_remapping !! ns ≫= (λ remap, remap !! profile) with
  | Some mapped => mapped
  | None => results
  end.

(** Modelled from the spec: [getProfile<ContactCheckProfile>(ns, profile,
    dictionary, default_profile)], declared outside this file. Step 3: "look
    up the (possibly remapped) name in profileRegistry; if absent, synthesize
    a default-constructed profile value instead of failing": the caller
    passes that value as [default_profile], a shared pointer, here an
    [option] whose [None] is the null pointer. *)
Definition getProfile (ns profile : string)
    (profile_dictionary : gmap string (gmap string ContactCheckProfile))
    (default_profile : option ContactCheckProfile)
  : option ContactCheckProfile :=
  match profile_dictionary !! ns ≫= (λ entries, entries !! profile) with
  | Some p => Some p
  | None => default_profile
  end.

(** Modelled from the spec: [applyProfileOverrides(ns, profile, base,
    overrides)], declared outside this file. Step 4: "if overrideFn is
    present on the instruction, apply it to the profile from step 3,
    producing a new effective profile": the result is a new value, the base
    is only read. *)
Definition applyProfileOverrides (ns profile : string)
    (base : option ContactCheckProfile) (overrides : ProfileOverrides)
  : option ContactCheckProfile :=
  match overrides with
  | None => base
  | Some override => override <$> base
  end.

(** Lines 94-98 of the source: the chain of the three calls, on the
    arguments [runImpl] gives them. *)
Definition resolve (ns declared : string)
    (remapping : gmap string (gmap string string))
    (registry : gmap string (gmap string ContactCheckProfile))
    (overrides : ProfileOverrides) : option ContactCheckProfile :=
  let profile := declared in
  let profile := getProfileString ns profile remapping in
  let cur_composite_profile :=
    getProfile ns profile registry (Some ContactCheckProfile_default) in
  applyProfileOverrides ns profile cur_composite_profile overrides.

(** *** The world [runImpl] runs in *)

(** The events of the trace are the calls [runImpl] makes. [EvLogError],
    [EvLogInform] and [EvLogDebug] are calls of the console macros with the
    format ["%s"] and the message as its argument (lines 88, 113, 128).
    [EvLogDebugFormat] is the call of line 117, which passes the built line
    as the format itself, with no argument: what the console prints for it
    is the line only when the line has no percent sign. *)

Inductive Event : Type :=
| EvGetData (key : string)
| EvLogError (msg : string)
| EvLogInform (msg : string)
| EvLogDebug (msg : string)
| EvLogDebugFormat (format : string)
| EvContactCheck (manager : DiscreteContactManager) (solver : StateSolver)
    (program : CompositeInstruction) (cfg : ContactCheckConfig).

(** [w_clock n] is the [n]-th reading of the steady clock, [w_clock_reads]
    counts the readings made, [w_trace] lists the external calls, oldest
    first. *)
Record World : Type := mkWorld {
  w_input : TaskComposerInput;
  w_clock : nat -> Z;
  w_clock_reads : nat;
  w_trace : list Event
}.

(** State and undefined behaviour. *)
Definition M (A : Type) : Type := World -> option (A * World).

#[local] Instance M_ret : MRet M := λ A a w, Some (a, w).
#[local] Instance M_bind : MBind M :=
  λ A B k m w, match m w with Some (a, w') => k a w' | None => None end.

Definition undefined_behaviour {A : Type} : M A := λ _, None.

Definition gets {A : Type} (f : World -> A) : M A := λ w, Some (f w, w).

Definition emit (e : Event) : M unit :=
  λ w, Some (tt, {| w_input := w_input w; w_clock := w_clock w;
                   w_clock_reads := w_clock_reads w;
                   w_trace := w_trace w ++ [e] |}).

Definition steady_clock_now : M Z :=
  λ w, Some (w_clock w (w_clock_reads w),
             {| w_input := w_input w; w_clock := w_clock w;
                w_clock_reads := S (w_clock_reads w);
                w_trace := w_trace w |}).

(** [tesseract_common::Timer] *)
Record Timer : Type := mkTimer { start_time : Z }.

Definition Timer_start : M Timer :=
  t ← steady_clock_now; mret {| start_time := t |}.

Definition elapsedSeconds (timer : Timer) : M Z :=
  t ← steady_clock_now; mret (t - start_time timer)%Z.

(** [input.isAborted()] *)
Definition isAborted : M bool := gets (λ w, aborted (w_input w)).

(** [input.data_storage.getData(key)]: a null value for an unbound key. *)
Definition getData (key : string) : M AnyPoly :=
  emit (EvGetData key);;
  gets (λ w, default AnyPoly_null (data_storage (w_input w) !! key)).

(** [input_keys_[0]] *)
Definition input_keys_at_0 (keys : list string) : M string :=
  match keys with
  | key :: _ => mret key
  | [] => undefined_behaviour
  end.

(** Dereference of a shared pointer. *)
Definition deref {A : Type} (p : option A) : M A :=
  match p with
  | Some a => mret a
  | None => undefined_behaviour
  end.

Definition call_contactCheckProgram (manager : DiscreteContactManager)
    (solver : StateSolver) (program : CompositeInstruction)
    (cfg : ContactCheckConfig) : M (bool * list ContactResultMap) :=
  emit (EvContactCheck manager solver program cfg);;
  mret (contactCheckProgram manager solver program cfg).

(** The three nested loops of lines 114-119: one debug call per contact,
    with the line built here as its format. *)
Definition contact_debug_line (i : nat) (contact : ContactResult) : string :=
  "timestep: " ++ pretty i ++ " Links: " ++ fst (link_names contact) ++ ", "
  ++ snd (link_names contact) ++ " Dist: " ++ to_string_double (distance contact).

Definition contact_debug_lines (contacts : list ContactResultMap) : list string :=
  concat (imap (λ i (m : ContactResultMap),
                  concat (map (λ contact_vec : (string * string) * list ContactResult,
                                 map (contact_debug_line i) (snd contact_vec)) m))
               contacts).

Fixpoint log_debug_all (lines : list string) : M unit :=
  match lines with
  | [] => mret tt
  | l :: rest => emit (EvLogDebugFormat l);; log_debug_all rest
  end.

(** *** [runImpl] *)

Definition aborted_msg : string := "Aborted".
Definition invalid_input_msg : string :=
  "Input seed to DiscreteContactCheckTask must be a composite instruction".
Definition not_contact_free_msg (ci : CompositeInstruction) : string :=
  "Results are not contact free for process input: " ++ ci_getDescription ci.
Definition succeeded_msg : string := "Discrete contact check succeeded".

(** Lines 101-107: the contact manager the validator is given. *)
Definition configured_manager (environment : Environment)
    (problem_manip_info : ManipulatorInfo) (ci : CompositeInstruction)
    (cur_composite_profile : ContactCheckProfile) : DiscreteContactManager :=
  let manip_info := getCombined (ci_getManipulatorInfo ci) problem_manip_info in
  let manip := getJointGroup environment (manipulator manip_info) in
  let manager := getDiscreteContactManager environment in
  let manager := setActiveCollisionObjects (getActiveLinkNames manip) manager in
  applyContactManagerConfig
    (contact_manager_config (config cur_composite_profile)) manager.

(** [TaskComposerNodeInfo::UPtr DiscreteContactCheckTask::runImpl(
    TaskComposerInput& input, OptionalTaskComposerExecutor) const] *)
Definition runImpl (this : DiscreteContactCheckTask)
  : M DiscreteContactCheckTaskInfo :=
  let info := DiscreteContactCheckTaskInfo_ctor this in
  let info := set_return_value 0 info in
  environment ← gets (λ w, env (problem (w_input w)));
  let info := set_env environment info in
  is_aborted ← isAborted;
  if is_aborted : bool then
    let info := set_message aborted_msg info in
    mret info
  else
    timer ← Timer_start;
    (* Check that inputs are valid *)
    key ← input_keys_at_0 (input_keys_ (task_base this));
    input_data_poly ← getData key;
    if isNull input_data_poly
       || negb (type_index_eqb (getType input_data_poly) typeid_CompositeInstruction)
    then
      let info := set_message invalid_input_msg info in
      elapsed ← elapsedSeconds timer;
      let info := set_elapsed_time elapsed info in
      emit (EvLogError (message (info_base info)));;
      mret info
    else
      (* Get Composite Profile *)
      ci ← deref (as_CompositeInstruction input_data_poly);
      remapping ← gets (λ w, composite_profile_remapping (problem (w_input w)));
      registry ← gets (λ w, profiles (w_input w));
      cur_composite_profile ←
        deref (resolve (name_ (task_base this)) (ci_getProfile ci) remapping
                 registry (ci_getProfileOverrides ci));
      (* Get state solver *)
      problem_manip_info ← gets (λ w, manip_info (problem (w_input w)));
      let state_solver := getStateSolver environment in
      let manager :=
        configured_manager environment problem_manip_info ci cur_composite_profile in
      '(in_contact, contacts) ←
        call_contactCheckProgram manager state_solver ci
          (config cur_composite_profile);
      if in_contact : bool then
        let info := set_message (not_contact_free_msg ci) info in
        emit (EvLogInform (message (info_base info)));;
        log_debug_all (contact_debug_lines contacts);;
        let info := set_contact_results contacts info in
        elapsed ← elapsedSeconds timer;
        let info := set_elapsed_time elapsed info in
        mret info
      else
        let info := set_message succeeded_msg info in
        let info := set_return_value 1 info in
        elapsed ← elapsedSeconds timer;
        let info := set_elapsed_time elapsed info in
        emit (EvLogDebug (message (info_base info)));;
        mret info.

(** What the trace says about the collaborators. *)
Definition is_validator_call (e : Event) : bool :=
  match e with EvContactCheck _ _ _ _ => true | _ => false end.

Definition is_data_store_read (e : Event) : bool :=
  match e with EvGetData _ => true | _ => false end.

End Run.

Arguments Collaborators : clear implicits.
Arguments World : clear implicits.
Arguments Event : clear implicits.

(** ** Copies and serialization *)

Section Serialization.
(** [ar & BOOST_SERIALIZATION_BASE_OBJECT_NVP(Base)] for an archive class
    [Archive]: the archive and the base sub-object are both passed by
    reference, an output archive writes the object and an input archive
    overwrites it. Both base-class operations are parameters; the string is
    the name of the name-value pair. *)
Context {Archive NodeInfo ContactResultMap : Type}.
Variable archive_TaskComposerTask :
  Archive -> string -> TaskComposerTask -> Archive * TaskComposerTask.
Variable archive_TaskComposerNodeInfo :
  Archive -> string -> NodeInfo -> Archive * NodeInfo.

(** [template <class Archive> void DiscreteContactCheckTask::serialize(
    Archive& ar, const unsigned int version)] *)
Definition DiscreteContactCheckTask_serialize (ar : Archive) (version : nat)
    (this : DiscreteContactCheckTask) : Archive * DiscreteContactCheckTask :=
  let '(ar, base) := archive_TaskComposerTask ar "TaskComposerTask" (task_base this) in
  (ar, {| task_base := base |}).

(** [template <class Archive> void DiscreteContactCheckTaskInfo::serialize(
    Archive& ar, const unsigned int version)]; the line for
    [contact_results] is commented out in the source. *)
Definition DiscreteContactCheckTaskInfo_serialize (ar : Archive) (version : nat)
    (this : TaskInfo NodeInfo ContactResultMap)
  : Archive * TaskInfo NodeInfo ContactResultMap :=
  let '(ar, base) :=
    archive_TaskComposerNodeInfo ar "TaskComposerNodeInfo" (info_base this) in
  (ar, mkTaskInfo base (contact_results this)).

(** [TaskComposerNodeInfo::UPtr DiscreteContactCheckTaskInfo::clone() const]:
    the implicit copy constructor copies every member. *)
Definition DiscreteContactCheckTaskInfo_clone
    (this : TaskInfo NodeInfo ContactResultMap) : TaskInfo NodeInfo ContactResultMap :=
  mkTaskInfo (info_base this) (contact_results this).
End Serialization.

(** ** The outcomes of an invocation *)

Section Outcomes.
Context {double StateSolver ContactManagerConfig ContactCheckConfig
         Instruction DiscreteContactManager : Type}.
Context {collaborators :
  Collaborators double StateSolver ContactManagerConfig ContactCheckConfig
    Instruction DiscreteContactManager}.

Abbreviation world' :=
  (World StateSolver ContactCheckConfig Instruction DiscreteContactManager).
Abbreviation start_report this w :=
  (set_env (env (problem (w_input w)))
     (set_return_value 0
        (@DiscreteContactCheckTaskInfo_ctor double StateSolver DiscreteContactManager
           this))).
Abbreviation timed w :=
  (w_clock w (S (w_clock_reads w)) - w_clock w (w_clock_reads w))%Z.
Abbreviation validator_call w ci profile :=
  (EvContactCheck
     (configured_manager (env (problem (w_input w)))
        (manip_info (problem (w_input w))) ci profile)
     (getStateSolver (env (problem (w_input w)))) ci (config profile)).

Implicit Types (this : DiscreteContactCheckTask) (w : world').

(** The ways [runImpl] can return, one rule per [return] of the source
    (the last two returns share a rule), each with the report and the world
    it leaves; that these are the outcomes of [runImpl], all of them and no
    other, is proved below. *)
Inductive Outcome this w
  : DiscreteContactCheckTaskInfo -> world' -> Prop :=
| Outcome_aborted :
    aborted (w_input w) = true ->
    Outcome this w (set_message aborted_msg (start_report this w)) w
| Outcome_invalid key rest :
    aborted (w_input w) = false ->
    input_keys_ (task_base this) = key :: rest ->
    (forall ci, data_storage (w_input w) !! key <> Some (AnyPoly_composite ci)) ->
    Outcome this w
      (set_elapsed_time (timed w) (set_message invalid_input_msg (start_report this w)))
      {| w_input := w_input w; w_clock := w_clock w;
         w_clock_reads := S (S (w_clock_reads w));
         w_trace := w_trace w ++ [EvGetData key; EvLogError invalid_input_msg] |}
| Outcome_checked key rest ci profile in_contact contacts :
    aborted (w_input w) = false ->
    input_keys_ (task_base this) = key :: rest ->
    data_storage (w_input w) !! key = Some (AnyPoly_composite ci) ->
    resolve (name_ (task_base this)) (ci_getProfile ci)
      (composite_profile_remapping (problem (w_input w)))
      (profiles (w_input w)) (ci_getProfileOverrides ci) = Some profile ->
    contactCheckProgram
      (configured_manager (env (problem (w_input w)))
         (manip_info (problem (w_input w))) ci profile)
      (getStateSolver (env (problem (w_input w)))) ci (config profile)
    = (in_contact, contacts) ->
    Outcome this w
      (set_elapsed_time (timed w)
         (if in_contact
          then set_contact_results contacts
                 (set_message (not_contact_free_msg ci) (start_report this w))
          else set_return_value 1
                 (set_message succeeded_msg (start_report this w))))
      {| w_input := w_input w; w_clock := w_clock w;
         w_clock_reads := S (S (w_clock_reads w));
         w_trace :=
           w_trace w
           ++ EvGetData key :: validator_call w ci profile
              :: (if in_contact
                  then EvLogInform (not_contact_free_msg ci)
                       :: map EvLogDebugFormat (contact_debug_lines contacts)
                  else [EvLogDebug succeeded_msg]) |}.

End Outcomes.

(** ** Vocabulary of the properties *)

(** [contains needle s]: the string [s] has [needle] as a substring. *)
Fixpoint contains (needle s : string) : bool :=
  String.prefix needle s
  || match s with
     | EmptyString => false
     | String _ rest => contains needle rest
     end.

(** The number of contact records in the validator's per-sample data. *)
Definition contact_count {double : Type}
    (contacts : list (@ContactResultMap double)) : nat :=
  sum_list (map (λ m : @ContactResultMap double,
                   sum_list (map (λ contact_vec, length (snd contact_vec)) m))
                contacts).

Definition is_debug_log {StateSolver ContactCheckConfig Instruction
    DiscreteContactManager : Type}
    (e : Event StateSolver ContactCheckConfig Instruction DiscreteContactManager)
  : bool :=
  match e with EvLogDebug _ | EvLogDebugFormat _ => true | _ => false end.

(** ** A test bench: mocked collaborators and two end-to-end scenarios *)

Module Bench.

(** A distance in millimetres, a margin in millimetres, a configuration that
    is just its margin, a trajectory sample that says whether the robot is in
    contact there, and a manager that records what it was given. *)
Definition double : Type := Z.
Definition StateSolver : Type := unit.
Definition ContactManagerConfig : Type := Z.
Definition ContactCheckConfig : Type := Z.
Definition Instruction : Type := bool.
Definition DiscreteContactManager : Type := list string * list Z.

Definition L1_L2 : string * string := ("L1", "L2").

Definition contact_at (sample_in_contact : bool) : @ContactResultMap double :=
  if sample_in_contact
  then [(L1_L2, [{| link_names := L1_L2; distance := (-10)%Z |}])]
  else [].

(** The mocked validator: one map per sample, and "any contact". *)
Definition validator (manager : DiscreteContactManager) (solver : StateSolver)
    (program : @CompositeInstruction ContactCheckConfig Instruction)
    (cfg : ContactCheckConfig) : bool * list (@ContactResultMap double) :=
  (existsb id (ci_instructions program), map contact_at (ci_instructions program)).

#[export] Instance mocks :
  Collaborators double StateSolver ContactManagerConfig ContactCheckConfig
    Instruction DiscreteContactManager :=
  {| to_string_double := λ d : double, String.append (pretty (d : Z)) "mm";
     contact_manager_config := λ cfg : ContactCheckConfig, cfg;
     ContactCheckProfile_default := {| config := 0%Z |};
     DEFAULT_PROFILE_KEY := "DEFAULT";
     getCombined := λ own override,
       if String.eqb (manipulator override) "" then own else override;
     setActiveCollisionObjects := λ links (m : DiscreteContactManager), (links, snd m);
     applyContactManagerConfig := λ cfg (m : DiscreteContactManager), (fst m, cfg :: snd m);
     contactCheckProgram := validator |}.

Definition robot : ManipulatorInfo :=
  {| manipulator := "arm"; working_frame := "base"; tcp_frame := "tool" |}.

Definition cell : @Environment StateSolver DiscreteContactManager :=
  {| getJointGroup := λ group, {| getActiveLinkNames := ["L1"; "L2"] |};
     getStateSolver := tt;
     getDiscreteContactManager := ([], []) |}.

Definition trajectory (samples : list bool)
    (overrides : @ProfileOverrides ContactCheckConfig)
  : @CompositeInstruction ContactCheckConfig Instruction :=
  {| ci_getProfile := "";
     ci_getProfileOverrides := overrides;
     ci_getManipulatorInfo := robot;
     ci_getDescription := "pick";
     ci_instructions := samples |}.

Definition registry : gmap string (gmap string (@ContactCheckProfile ContactCheckConfig)) :=
  {[ "checker" := {[ "DEFAULT" := {| config := 25%Z |};
                     "custom" := {| config := 40%Z |} ]} ]}.

Definition input_with (store : gmap string (@AnyPoly ContactCheckConfig Instruction))
    (abort : bool)
  : @TaskComposerInput StateSolver ContactCheckConfig Instruction DiscreteContactManager :=
  {| problem := {| env := cell; manip_info := robot;
                   composite_profile_remapping := ∅ |};
     profiles := registry;
     data_storage := store;
     aborted := abort |}.

(** The clock shows 100, 107, 114, ... *)
Definition world_with (store : gmap string (@AnyPoly ContactCheckConfig Instruction))
    (abort : bool)
  : World StateSolver ContactCheckConfig Instruction DiscreteContactManager :=
  {| w_input := input_with store abort;
     w_clock := λ n, (100 + 7 * Z.of_nat n)%Z;
     w_clock_reads := 0;
     w_trace := [] |}.

Definition checker : DiscreteContactCheckTask :=
  DiscreteContactCheckTask_direct "checker" "trajectory" true.

(** Scenario A: no sample in contact. Scenario B: sample 2 in contact. *)
Definition scenario_A : list bool := [false; false; false].
Definition scenario_B : list bool := [false; false; true; false].

Definition store_of (samples : list bool)
    (overrides : @ProfileOverrides ContactCheckConfig)
  : gmap string (@AnyPoly ContactCheckConfig Instruction) :=
  {[ "trajectory" := AnyPoly_composite (trajectory samples overrides) ]}.

(** An override that widens the margin by 5 mm. *)
Definition widen (p : @ContactCheckProfile ContactCheckConfig)
  : @ContactCheckProfile ContactCheckConfig :=
  {| config := (config p + 5)%Z |}.

(** A remapping table with an entry for the empty and for the default name. *)
Definition remap_checker : gmap string (gmap string string) :=
  {[ "checker" := {[ "" := "custom"; "DEFAULT" := "custom" ]} ]}.

(** A data store that binds the input key to a value of another type. *)
Definition store_of_other : gmap string (@AnyPoly ContactCheckConfig Instruction) :=
  {[ "trajectory" := AnyPoly_other "JointTrajectory" ]}.

(** Two reports over a base that is just a return value: same base,
    different contact data. *)
Definition report_clear : TaskInfo Z (@ContactResultMap double) :=
  mkTaskInfo 0%Z [].
Definition report_in_contact : TaskInfo Z (@ContactResultMap double) :=
  mkTaskInfo 0%Z (map contact_at scenario_B).

(** A parser of a configuration that is already the list of its inputs. *)
Definition parse_inputs (name : string) (inputs : list string)
  : result TaskComposerTask :=
  Ok {| name_ := name; is_conditional_ := true; input_keys_ := inputs |}.

(** An archive over values of type [B]: an output archive appends what it
    is given, an input archive hands out what was written, oldest first. *)
Inductive archive (B : Type) : Type :=
| Saving (written : list B)
| Loading (pending : list B).
Arguments Saving {B} written.
Arguments Loading {B} pending.

Definition archive_op {B : Type} (ar : archive B) (name : string) (object : B)
  : archive B * B :=
  match ar with
  | Saving written => (Saving (written ++ [object]), object)
  | Loading (stored :: pending) => (Loading pending, stored)
  | Loading [] => (Loading [], object)
  end.

(** Opens for reading what an output archive has written. *)
Definition reopen {B : Type} (ar : archive B) : archive B :=
  match ar with
  | Saving written => Loading written
  | Loading pending => Loading pending
  end.

End Bench.

(** * Properties *)

(** ** The execution contract of [runImpl] *)

Section RunProperties.
Context {double StateSolver ContactManagerConfig ContactCheckConfig
         Instruction DiscreteContactManager : Type}.
Context {collaborators :
  Collaborators double StateSolver ContactManagerConfig ContactCheckConfig
    Instruction DiscreteContactManager}.

Abbreviation world :=
  (World StateSolver ContactCheckConfig Instruction DiscreteContactManager).
Abbreviation resolved this w ci :=
  (resolve (name_ (task_base this)) (ci_getProfile ci)
     (composite_profile_remapping (problem (w_input w)))
     (profiles (w_input w)) (ci_getProfileOverrides ci)).
Abbreviation manager_for w ci profile :=
  (configured_manager (env (problem (w_input w)))
     (manip_info (problem (w_input w))) ci profile).
Abbreviation verdict w ci profile :=
  (contactCheckProgram (manager_for w ci profile)
     (getStateSolver (env (problem (w_input w)))) ci (config profile)).
Abbreviation fresh_report this :=
  (@DiscreteContactCheckTaskInfo_ctor double StateSolver DiscreteContactManager this).

Implicit Types (this : DiscreteContactCheckTask) (w : world).

Ltac run_unfold :=
  unfold runImpl, mbind, M_bind, mret, M_ret, gets, isAborted, Timer_start,
    elapsedSeconds, steady_clock_now, getData, input_keys_at_0, emit, deref,
    call_contactCheckProgram;
  simpl.

(** The debug loop appends one call per line and nothing else. *)
Lemma log_debug_all_spec (lines : list string) w :
  log_debug_all lines w =
  Some (tt, {| w_input := w_input w; w_clock := w_clock w;
               w_clock_reads := w_clock_reads w;
               w_trace := w_trace w ++ map EvLogDebugFormat lines |}).
Proof.
  revert w. induction lines as [|l lines IH]; intros [i c r t]; simpl.
  - now rewrite app_nil_r.
  - unfold mbind, M_bind, emit; simpl. rewrite IH; simpl.
    now rewrite <- app_assoc.
Qed.

(** The path of an aborted invocation. *)
Lemma runImpl_abort_path this w :
  aborted (w_input w) = true ->
  runImpl this w
  = Some (set_message aborted_msg
            (set_env (env (problem (w_input w)))
               (set_return_value 0 (fresh_report this))), w).
Proof.
  intros Habort.
  unfold runImpl, mbind, M_bind, gets, isAborted; simpl.
  rewrite Habort. reflexivity.
Qed.

(** The path of an input that is not a composite instruction. *)
Lemma runImpl_invalid_path this w key rest :
  aborted (w_input w) = false ->
  input_keys_ (task_base this) = key :: rest ->
  (forall ci, data_storage (w_input w) !! key <> Some (AnyPoly_composite ci)) ->
  runImpl this w
  = Some (set_elapsed_time
            (w_clock w (S (w_clock_reads w)) - w_clock w (w_clock_reads w))
            (set_message invalid_input_msg
               (set_env (env (problem (w_input w)))
                  (set_return_value 0 (fresh_report this)))),
          {| w_input := w_input w; w_clock := w_clock w;
             w_clock_reads := S (S (w_clock_reads w));
             w_trace := w_trace w ++ [EvGetData key; EvLogError invalid_input_msg] |}).
Proof.
  intros Habort Hkeys Hdata.
  assert (Hguard :
    let v := default AnyPoly_null (data_storage (w_input w) !! key) in
    isNull v || negb (type_index_eqb (getType v) typeid_CompositeInstruction) = true).
  { destruct (data_storage (w_input w) !! key) as [[|ci|n]|] eqn:E; simpl; trivial.
    now destruct (Hdata ci). }
  simpl in Hguard.
  run_unfold. rewrite Habort, Hkeys; simpl. rewrite Hguard; simpl.
  rewrite <- app_assoc. reflexivity.
Qed.

(** The path through the validator, for either verdict. *)
Lemma runImpl_checked this w key rest ci profile in_contact contacts :
  aborted (w_input w) = false ->
  input_keys_ (task_base this) = key :: rest ->
  data_storage (w_input w) !! key = Some (AnyPoly_composite ci) ->
  resolve (name_ (task_base this)) (ci_getProfile ci)
    (composite_profile_remapping (problem (w_input w)))
    (profiles (w_input w)) (ci_getProfileOverrides ci) = Some profile ->
  contactCheckProgram
    (configured_manager (env (problem (w_input w)))
       (manip_info (problem (w_input w))) ci profile)
    (getStateSolver (env (problem (w_input w)))) ci (config profile)
  = (in_contact, contacts) ->
  exists info w',
    runImpl this w = Some (info, w')
    /\ w_input w' = w_input w
    /\ w_clock_reads w' = S (S (w_clock_reads w))
    /\ elapsed_time (info_base info)
       = (w_clock w (S (w_clock_reads w)) - w_clock w (w_clock_reads w))%Z
    /\ return_value (info_base info) = (if in_contact then 0 else 1)%Z
    /\ message (info_base info)
       = (if in_contact then not_contact_free_msg ci else succeeded_msg)
    /\ contact_results info = (if in_contact then contacts else [])
    /\ w_trace w'
       = w_trace w
         ++ [EvGetData key;
             EvContactCheck
               (configured_manager (env (problem (w_input w)))
                  (manip_info (problem (w_input w))) ci profile)
               (getStateSolver (env (problem (w_input w)))) ci (config profile)]
         ++ (if in_contact
             then EvLogInform (not_contact_free_msg ci)
                  :: map EvLogDebugFormat (contact_debug_lines contacts)
             else [EvLogDebug succeeded_msg]).
Proof.
  intros Habort Hkeys Hdata Hresolve Hverdict.
  destruct in_contact; eexists _, _; (split; [
    run_unfold; rewrite Habort, Hkeys; simpl; rewrite Hdata; simpl;
    rewrite Hresolve; simpl; rewrite Hverdict; simpl;
    rewrite ?log_debug_all_spec; simpl; reflexivity
  | simpl; rewrite <- ?app_assoc; simpl; repeat split ]).
Qed.

(** The resolver always yields a profile: the default given by the source
    is not null. *)
Lemma resolve_is_Some (ns declared : string)
    (remapping : gmap string (gmap string string))
    (registry : gmap string (gmap string (@ContactCheckProfile ContactCheckConfig)))
    (overrides : ProfileOverrides) :
  exists p, resolve ns declared remapping registry overrides = Some p.
Proof.
  unfold resolve, getProfile, applyProfileOverrides.
  destruct (registry !! ns ≫= _) as [p|]; destruct overrides as [f|];
    simpl; eauto.
Qed.

(** [runImpl] only reads its input: the data store, the problem and the
    profile registry are the same after every invocation. *)
Lemma runImpl_frame this w info w' :
  runImpl this w = Some (info, w') -> w_input w' = w_input w.
Proof.
  intros Hrun.
  destruct (aborted (w_input w)) eqn:Habort.
  { rewrite (runImpl_abort_path this w Habort) in Hrun. congruence. }
  destruct (input_keys_ (task_base this)) as [|key rest] eqn:Ekeys.
  { revert Hrun. run_unfold. rewrite Habort, Ekeys. discriminate. }
  destruct (data_storage (w_input w) !! key) as [[|ci|n]|] eqn:Edata.
  2: { destruct (resolve_is_Some (name_ (task_base this)) (ci_getProfile ci)
         (composite_profile_remapping (problem (w_input w)))
         (profiles (w_input w)) (ci_getProfileOverrides ci)) as (p & Hp).
       destruct (verdict w ci p) as [hit contacts] eqn:Ev.
       destruct (runImpl_checked this w key rest ci p hit contacts
                   Habort Ekeys Edata Hp Ev) as (info0 & w0 & Hrun0 & Hin & _).
       congruence. }
  all: rewrite (runImpl_invalid_path this w key rest Habort Ekeys) in Hrun;
    [ injection Hrun as _ <-; reflexivity | rewrite Edata; congruence ].
Qed.

(** C1. When the abort flag of the context is set, [runImpl] returns at
    once: the report carries the message "Aborted" and the return value 0,
    its elapsed time is the zero of a fresh report and it has no contact
    data; the world is left as it was, so the data store was not read, the
    validator was not invoked and the clock was not consulted. *)
Theorem runImpl_aborted this w :
  aborted (w_input w) = true ->
  exists info w',
    runImpl this w = Some (info, w')
    /\ message (info_base info) = "Aborted"
    /\ return_value (info_base info) = 0%Z
    /\ elapsed_time (info_base info) = 0%Z
    /\ elapsed_time (info_base info) = elapsed_time (info_base (fresh_report this))
    /\ contact_results info = []
    /\ w' = w
    /\ filter is_data_store_read (w_trace w') = filter is_data_store_read (w_trace w)
    /\ filter is_validator_call (w_trace w') = filter is_validator_call (w_trace w)
    /\ w_clock_reads w' = w_clock_reads w.
Proof.
  intros Habort. eexists _, _. split.
  - apply runImpl_abort_path, Habort.
  - repeat split.
Qed.

(** C2. Without abort, when the value bound to [input_keys_[0]] is absent,
    null or of another type than the composite instruction, [runImpl]
    returns normally (nothing is thrown) a report with return value 0, the
    message that names the expected composite instruction, and the elapsed
    time read from the timer; the validator is not invoked and the input is
    left as it was. *)
Theorem runImpl_invalid_input this w key rest :
  aborted (w_input w) = false ->
  input_keys_ (task_base this) = key :: rest ->
  (forall ci, data_storage (w_input w) !! key <> Some (AnyPoly_composite ci)) ->
  exists info w',
    runImpl this w = Some (info, w')
    /\ return_value (info_base info) = 0%Z
    /\ message (info_base info)
       = "Input seed to DiscreteContactCheckTask must be a composite instruction"
    /\ contains "composite instruction" (message (info_base info)) = true
    /\ elapsed_time (info_base info)
       = (w_clock w (S (w_clock_reads w)) - w_clock w (w_clock_reads w))%Z
    /\ w_clock_reads w' = S (S (w_clock_reads w))
    /\ contact_results info = []
    /\ w_trace w'
       = w_trace w ++ [EvGetData key; EvLogError (message (info_base info))]
    /\ w_input w' = w_input w.
Proof.
  intros Habort Hkeys Hdata. eexists _, _. split.
  - apply (runImpl_invalid_path this w key rest Habort Hkeys Hdata).
  - repeat split.
Qed.

(** C3, as the code has it. Without abort and with a composite instruction
    bound to the input key, when the validator reports no contact [runImpl]
    returns a report with return value 1, the message "Discrete contact
    check succeeded" (which contains "succeeded"), no contact data, and the
    elapsed time read from the timer. *)
Theorem runImpl_clear this w key rest ci profile :
  aborted (w_input w) = false ->
  input_keys_ (task_base this) = key :: rest ->
  data_storage (w_input w) !! key = Some (AnyPoly_composite ci) ->
  resolved this w ci = Some profile ->
  fst (verdict w ci profile) = false ->
  exists info w',
    runImpl this w = Some (info, w')
    /\ return_value (info_base info) = 1%Z
    /\ message (info_base info) = "Discrete contact check succeeded"
    /\ contains "succeeded" (message (info_base info)) = true
    /\ contact_results info = []
    /\ elapsed_time (info_base info)
       = (w_clock w (S (w_clock_reads w)) - w_clock w (w_clock_reads w))%Z
    /\ w_clock_reads w' = S (S (w_clock_reads w)).
Proof.
  intros Habort Hkeys Hdata Hresolve Hclear.
  destruct (verdict w ci profile) as [hit contacts] eqn:Ev.
  simpl in Hclear; subst hit.
  destruct (runImpl_checked this w key rest ci profile false contacts
              Habort Hkeys Hdata Hresolve Ev)
    as (info & w' & Hrun & _ & Hreads & Htime & Hret & Hmsg & Hres & _).
  exists info, w'. rewrite Hmsg. repeat split; assumption.
Qed.


(** C8. When the instruction carries an override, the effective profile is
    the override applied to the base profile found for the resolved name;
    the validator is given the manager and the configuration of that new
    profile, the report is its verdict, and the profile registry, with the
    entry the base came from, is the same after the invocation. *)
Theorem override_leaves_registry_unchanged this w key rest ci override base :
  aborted (w_input w) = false ->
  input_keys_ (task_base this) = key :: rest ->
  data_storage (w_input w) !! key = Some (AnyPoly_composite ci) ->
  ci_getProfileOverrides ci = Some override ->
  getProfile (name_ (task_base this))
    (getProfileString (name_ (task_base this)) (ci_getProfile ci)
       (composite_profile_remapping (problem (w_input w))))
    (profiles (w_input w)) (Some ContactCheckProfile_default) = Some base ->
  exists info w',
    runImpl this w = Some (info, w')
    /\ resolved this w ci = Some (override base)
    /\ In (EvContactCheck (manager_for w ci (override base))
             (getStateSolver (env (problem (w_input w)))) ci
             (config (override base)))
          (w_trace w')
    /\ return_value (info_base info)
       = (if fst (verdict w ci (override base)) then 0 else 1)%Z
    /\ profiles (w_input w') = profiles (w_input w)
    /\ getProfile (name_ (task_base this))
         (getProfileString (name_ (task_base this)) (ci_getProfile ci)
            (composite_profile_remapping (problem (w_input w'))))
         (profiles (w_input w')) (Some ContactCheckProfile_default) = Some base.
Proof.
  intros Habort Hkeys Hdata Hover Hbase.
  assert (Hresolve : resolved this w ci = Some (override base)).
  { unfold resolve, applyProfileOverrides. rewrite Hover, Hbase. reflexivity. }
  destruct (verdict w ci (override base)) as [hit contacts] eqn:Ev.
  destruct (runImpl_checked this w key rest ci (override base) hit contacts
              Habort Hkeys Hdata Hresolve Ev)
    as (info & w' & Hrun & Hin & _ & _ & Hret & _ & _ & Htrace).
  exists info, w'. rewrite Hin, Htrace. repeat split; try assumption.
  apply in_or_app. right. apply in_or_app. left. simpl. auto.
Qed.

End RunProperties.

(** ** The profile resolver *)

Section ResolverProperties.
Context {double StateSolver ContactManagerConfig ContactCheckConfig
         Instruction DiscreteContactManager : Type}.
Context {collaborators :
  Collaborators double StateSolver ContactManagerConfig ContactCheckConfig
    Instruction DiscreteContactManager}.

(** C7, as the resolver has it. Resolution always yields a profile. An
    empty declared name resolves to the default profile name when the
    remapping table has no entry for it under the node, and any declared
    name resolves to the mapped name when it has one. A resolved name absent
    from the registry yields the default-constructed profile, with the
    instruction's override applied when there is one. *)
Theorem resolve_total_with_defaults (ns declared : string)
    (remapping : gmap string (gmap string string))
    (registry : gmap string (gmap string (@ContactCheckProfile ContactCheckConfig)))
    (overrides : ProfileOverrides) :
  (exists p, resolve ns declared remapping registry overrides = Some p)
  /\ (remapping !! ns ≫= (λ remap, remap !! "") = None ->
      getProfileString ns "" remapping = DEFAULT_PROFILE_KEY)
  /\ (forall mapped,
        remapping !! ns ≫= (λ remap, remap !! declared) = Some mapped ->
        getProfileString ns declared remapping = mapped)
  /\ (registry !! ns
        ≫= (λ entries, entries !! getProfileString ns declared remapping) = None ->
      getProfile ns (getProfileString ns declared remapping) registry
        (Some ContactCheckProfile_default) = Some ContactCheckProfile_default
      /\ resolve ns declared remapping registry overrides
         = Some match overrides with
                | Some override => override ContactCheckProfile_default
                | None => ContactCheckProfile_default
                end).
Proof.
  split; [apply resolve_is_Some|].
  split; [|split].
  - intros Hnone. unfold getProfileString. rewrite Hnone. reflexivity.
  - intros mapped Hsome. unfold getProfileString. rewrite Hsome. reflexivity.
  - intros Habsent. unfold resolve, getProfile. rewrite Habsent.
    split; [reflexivity|]. now destruct overrides.
Qed.

End ResolverProperties.

(** ** Construction *)

Section ConstructionProperties.
Context {YAMLNode PluginFactory : Type}.
Variable parse : string -> YAMLNode -> result TaskComposerTask.

(** C5. Once the base class has parsed the configuration, construction
    throws the "missing 'inputs' entry" error when the parsed input keys are
    empty, throws the "only supports one input key" error when there is more
    than one, and succeeds, keeping the parsed node, when there is exactly
    one. *)
Theorem from_config_checks_input_keys
    (name : string) (config : YAMLNode) (plugin_factory : PluginFactory)
    (base : TaskComposerTask) :
  parse name config = Ok base ->
  (input_keys_ base = [] ->
   DiscreteContactCheckTask_from_config parse name config plugin_factory
   = Throw (runtime_error
              "DiscreteContactCheckTask, config missing 'inputs' entry"))
  /\ (1 < length (input_keys_ base) ->
      DiscreteContactCheckTask_from_config parse name config plugin_factory
      = Throw (runtime_error
                 "DiscreteContactCheckTask, config 'inputs' entry currently only supports one input key"))
  /\ (length (input_keys_ base) = 1 ->
      DiscreteContactCheckTask_from_config parse name config plugin_factory
      = Ok {| task_base := base |}).
Proof.
  intros Hparse. unfold DiscreteContactCheckTask_from_config. rewrite Hparse.
  repeat split.
  - intros ->. reflexivity.
  - intros Hmany.
    destruct (input_keys_ base) as [|k [|k' ks]]; simpl in *; [lia|lia|reflexivity].
  - intros Hone.
    destruct (input_keys_ base) as [|k [|k' ks]]; simpl in *; [lia|reflexivity|lia].
Qed.

(** The configuration constructor lets through exactly the nodes with one
    input key. *)
Lemma from_config_Ok_inv
    (name : string) (config : YAMLNode) (plugin_factory : PluginFactory)
    (t : DiscreteContactCheckTask) :
  DiscreteContactCheckTask_from_config parse name config plugin_factory = Ok t ->
  parse name config = Ok (task_base t) /\ length (input_keys_ (task_base t)) = 1.
Proof.
  unfold DiscreteContactCheckTask_from_config.
  destruct (parse name config) as [base|e]; [|discriminate].
  destruct (input_keys_ base) as [|k [|k' ks]] eqn:E; simpl; try discriminate.
  intros [= <-]. simpl. rewrite E. auto.
Qed.

(** C6, as the constructors have it. A node built by the direct constructor
    or by a successful construction from a configuration has exactly one
    input key; a construction from a configuration whose parsed input keys
    are not exactly one throws at construction time; the default constructor
    builds a node with no input key. *)
Theorem constructed_from_arguments_has_one_key (t : DiscreteContactCheckTask) :
  ConstructedFromArguments (PluginFactory := PluginFactory) parse t ->
  length (input_keys_ (task_base t)) = 1
  /\ (forall name config (plugin_factory : PluginFactory) base,
        parse name config = Ok base ->
        length (input_keys_ base) <> 1 ->
        exists e,
          DiscreteContactCheckTask_from_config parse name config plugin_factory
          = Throw e)
  /\ input_keys_ (task_base DiscreteContactCheckTask_default) = [].
Proof.
  intros Hbuilt. repeat split.
  - destruct Hbuilt as [name key cond | name config pf t Hok].
    + reflexivity.
    + apply (from_config_Ok_inv name config pf t Hok).
  - intros name config pf base Hparse Hlen.
    unfold DiscreteContactCheckTask_from_config. rewrite Hparse.
    destruct (input_keys_ base) as [|k [|k' ks]]; simpl in *; eauto.
    now destruct Hlen.
Qed.

End ConstructionProperties.

(** ** Equality *)

(** C9. Two nodes of this type compare equal exactly when they have the same
    name, the same conditional flag and the same input keys, which is all a
    node holds: no report is part of it. [operator!=] is the negation of
    [operator==]. *)
Theorem node_equality_is_structural (lhs rhs : DiscreteContactCheckTask) :
  (DiscreteContactCheckTask_eq lhs rhs = true
   <-> name_ (task_base lhs) = name_ (task_base rhs)
       /\ is_conditional_ (task_base lhs) = is_conditional_ (task_base rhs)
       /\ input_keys_ (task_base lhs) = input_keys_ (task_base rhs))
  /\ (DiscreteContactCheckTask_eq lhs rhs = true <-> lhs = rhs)
  /\ DiscreteContactCheckTask_ne lhs rhs = negb (DiscreteContactCheckTask_eq lhs rhs).
Proof.
  assert (Hfields :
    DiscreteContactCheckTask_eq lhs rhs = true
    <-> name_ (task_base lhs) = name_ (task_base rhs)
        /\ is_conditional_ (task_base lhs) = is_conditional_ (task_base rhs)
        /\ input_keys_ (task_base lhs) = input_keys_ (task_base rhs)).
  { unfold DiscreteContactCheckTask_eq, TaskComposerTask_eq. simpl.
    rewrite !andb_true_iff, String.eqb_eq, Bool.eqb_true_iff, bool_decide_eq_true.
    tauto. }
  split; [exact Hfields|]. split; [|reflexivity].
  rewrite Hfields. destruct lhs as [[n1 c1 k1]], rhs as [[n2 c2 k2]]; simpl.
  split.
  - intros (-> & -> & ->). reflexivity.
  - intros [= -> -> ->]. auto.
Qed.

Section ReportEqualityProperties.
Context {NodeInfo ContactResultMap : Type}.
Variable base_eq : NodeInfo -> NodeInfo -> bool.

(** C10. Two reports whose base-class parts compare equal are equal for
    [operator==], whatever their contact results are: the comparison is the
    one of the base class alone. *)
Theorem report_equality_ignores_contact_results
    (base_lhs base_rhs : NodeInfo) (contacts_lhs contacts_rhs : list ContactResultMap) :
  base_eq base_lhs base_rhs = true ->
  DiscreteContactCheckTaskInfo_eq base_eq
    (mkTaskInfo base_lhs contacts_lhs) (mkTaskInfo base_rhs contacts_rhs) = true
  /\ DiscreteContactCheckTaskInfo_ne base_eq
       (mkTaskInfo base_lhs contacts_lhs) (mkTaskInfo base_rhs contacts_rhs) = false.
Proof.
  intros Hbase.
  unfold DiscreteContactCheckTaskInfo_ne, DiscreteContactCheckTaskInfo_eq; simpl.
  rewrite Hbase. split; reflexivity.
Qed.

End ReportEqualityProperties.

(** ** The properties on the test bench *)

Import Bench.

(** C1 on the bench: an aborted invocation of the checker. *)
Lemma runImpl_aborted_witness :
  aborted (w_input (world_with (store_of scenario_B None) true)) = true
  /\ exists info w',
       runImpl checker (world_with (store_of scenario_B None) true) = Some (info, w')
       /\ message (info_base info) = "Aborted"
       /\ return_value (info_base info) = 0%Z
       /\ w_trace w' = [].
Proof.
  split; [reflexivity|].
  destruct (runImpl_aborted checker (world_with (store_of scenario_B None) true) eq_refl)
    as (info & w' & Hrun & Hmsg & Hret & _ & _ & _ & Hw & _).
  exists info, w'. subst w'. repeat split; assumption.
Defined.

(** C2 on the bench: the input key is bound to a joint trajectory. *)
Lemma runImpl_invalid_input_witness :
  aborted (w_input (world_with store_of_other false)) = false
  /\ input_keys_ (task_base checker) = ["trajectory"]
  /\ (forall ci, data_storage (w_input (world_with store_of_other false)) !! "trajectory"
                 <> Some (AnyPoly_composite ci))
  /\ exists info w',
       runImpl checker (world_with store_of_other false) = Some (info, w')
       /\ return_value (info_base info) = 0%Z
       /\ contains "composite instruction" (message (info_base info)) = true
       /\ elapsed_time (info_base info) = 7%Z.
Proof.
  assert (Hother :
    forall ci, data_storage (w_input (world_with store_of_other false)) !! "trajectory"
               <> Some (AnyPoly_composite ci)).
  { intros ci H. vm_compute in H. discriminate H. }
  split; [reflexivity|]. split; [reflexivity|]. split; [exact Hother|].
  destruct (runImpl_invalid_input checker (world_with store_of_other false)
              "trajectory" [] eq_refl eq_refl Hother)
    as (info & w' & Hrun & Hret & _ & Hnames & Htime & _).
  exists info, w'. repeat split; assumption.
Defined.

(** C3, the counterexample: scenario A is valid and clear, the report has
    return value 1, and its message is not the bare word "succeeded". *)
Lemma clear_message_is_not_succeeded :
  aborted (w_input (world_with (store_of scenario_A None) false)) = false
  /\ data_storage (w_input (world_with (store_of scenario_A None) false)) !! "trajectory"
     = Some (AnyPoly_composite (trajectory scenario_A None))
  /\ (forall manager solver cfg,
        fst (contactCheckProgram manager solver (trajectory scenario_A None) cfg) = false)
  /\ exists info w',
       runImpl checker (world_with (store_of scenario_A None) false) = Some (info, w')
       /\ return_value (info_base info) = 1%Z
       /\ message (info_base info) = "Discrete contact check succeeded"
       /\ message (info_base info) <> "succeeded".
Proof.
  split; [reflexivity|]. split; [vm_compute; reflexivity|].
  split; [reflexivity|].
  eexists _, _. split; [vm_compute; reflexivity|].
  repeat split. discriminate.
Defined.

(** C3 on the bench: scenario A. *)
Lemma runImpl_clear_witness :
  aborted (w_input (world_with (store_of scenario_A None) false)) = false
  /\ exists info w',
       runImpl checker (world_with (store_of scenario_A None) false) = Some (info, w')
       /\ return_value (info_base info) = 1%Z
       /\ message (info_base info) = "Discrete contact check succeeded"
       /\ contact_results info = []
       /\ elapsed_time (info_base info) = 7%Z.
Proof.
  split; [reflexivity|].
  assert (Hdata :
    data_storage (w_input (world_with (store_of scenario_A None) false)) !! "trajectory"
    = Some (AnyPoly_composite (trajectory scenario_A None))) by (vm_compute; reflexivity).
  assert (Hresolve :
    resolve (name_ (task_base checker)) (ci_getProfile (trajectory scenario_A None))
      (composite_profile_remapping
         (problem (w_input (world_with (store_of scenario_A None) false))))
      (profiles (w_input (world_with (store_of scenario_A None) false)))
      (ci_getProfileOverrides (trajectory scenario_A None))
    = Some {| config := 25%Z |}) by (vm_compute; reflexivity).
  destruct (runImpl_clear checker (world_with (store_of scenario_A None) false)
              "trajectory" [] (trajectory scenario_A None) {| config := 25%Z |}
              eq_refl eq_refl Hdata Hresolve eq_refl)
    as (info & w' & Hrun & Hret & Hmsg & _ & Hres & Htime & _).
  exists info, w'. repeat split; assumption.
Defined.


(** C8 on the bench: scenario A with an override that widens the margin of
    the registry's 25 mm to 30 mm; the validator sees 30, the registry
    still holds 25. *)
Lemma override_leaves_registry_unchanged_witness :
  ci_getProfileOverrides (trajectory scenario_A (Some widen)) = Some widen
  /\ exists info w',
       runImpl checker (world_with (store_of scenario_A (Some widen)) false)
       = Some (info, w')
       /\ In (EvContactCheck (["L1"; "L2"], [30%Z]) tt
                (trajectory scenario_A (Some widen)) 30%Z) (w_trace w')
       /\ profiles (w_input w') = registry
       /\ getProfile "checker" "DEFAULT" (profiles (w_input w'))
            (Some ContactCheckProfile_default) = Some {| config := 25%Z |}.
Proof.
  split; [reflexivity|].
  assert (Hdata :
    data_storage (w_input (world_with (store_of scenario_A (Some widen)) false))
      !! "trajectory"
    = Some (AnyPoly_composite (trajectory scenario_A (Some widen))))
    by (vm_compute; reflexivity).
  assert (Hbase :
    getProfile (name_ (task_base checker))
      (getProfileString (name_ (task_base checker))
         (ci_getProfile (trajectory scenario_A (Some widen)))
         (composite_profile_remapping
            (problem (w_input (world_with (store_of scenario_A (Some widen)) false)))))
      (profiles (w_input (world_with (store_of scenario_A (Some widen)) false)))
      (Some ContactCheckProfile_default)
    = Some {| config := 25%Z |}) by (vm_compute; reflexivity).
  destruct (override_leaves_registry_unchanged checker
              (world_with (store_of scenario_A (Some widen)) false)
              "trajectory" [] (trajectory scenario_A (Some widen)) widen
              {| config := 25%Z |} eq_refl eq_refl Hdata eq_refl Hbase)
    as (info & w' & Hrun & _ & Hcall & _ & Hreg & _).
  exists info, w'. split; [exact Hrun|]. split; [exact Hcall|].
  split; [exact Hreg|]. rewrite Hreg. vm_compute. reflexivity.
Defined.

(** C7, the counterexample: under a remapping table that maps the empty
    name (and the default name) of the node, the empty declared name
    resolves to the mapped name, not to the default one, and to the
    registry's profile of the mapped name. *)
Lemma empty_name_can_be_remapped :
  DEFAULT_PROFILE_KEY = "DEFAULT"
  /\ getProfileString "checker" "" remap_checker = "custom"
  /\ getProfileString "checker" "" remap_checker <> DEFAULT_PROFILE_KEY
  /\ resolve "checker" "" remap_checker registry None = Some {| config := 40%Z |}
  /\ getProfile "checker" DEFAULT_PROFILE_KEY registry None = Some {| config := 25%Z |}.
Proof.
  split; [reflexivity|]. split; [vm_compute; reflexivity|].
  split; [vm_compute; discriminate|].
  split; vm_compute; reflexivity.
Defined.

(** C7 on the bench: no remapping, a node the registry does not know. *)
Lemma resolve_total_with_defaults_witness :
  (∅ : gmap string (gmap string string)) !! "other" ≫= (λ remap, remap !! "") = None
  /\ getProfileString "other" "" ∅ = "DEFAULT"
  /\ resolve "other" "" ∅ registry (Some widen) = Some {| config := 5%Z |}.
Proof.
  destruct (resolve_total_with_defaults (collaborators := mocks)
              "other" "" ∅ registry (Some widen))
    as (_ & Hname & _ & Habsent).
  split; [reflexivity|]. split; [exact (Hname eq_refl)|].
  destruct Habsent as [_ Hresolve]; [vm_compute; reflexivity|].
  exact Hresolve.
Defined.

(** C5 on the bench: no input, two inputs, one input. *)
Lemma from_config_checks_input_keys_witness :
  DiscreteContactCheckTask_from_config parse_inputs "checker" [] tt
  = Throw (runtime_error "DiscreteContactCheckTask, config missing 'inputs' entry")
  /\ DiscreteContactCheckTask_from_config parse_inputs "checker" ["a"; "b"] tt
     = Throw (runtime_error
                "DiscreteContactCheckTask, config 'inputs' entry currently only supports one input key")
  /\ DiscreteContactCheckTask_from_config parse_inputs "checker" ["trajectory"] tt
     = Ok checker.
Proof.
  split; [|split].
  - apply (from_config_checks_input_keys parse_inputs "checker" [] tt
             {| name_ := "checker"; is_conditional_ := true; input_keys_ := [] |}
             eq_refl).
    reflexivity.
  - apply (from_config_checks_input_keys parse_inputs "checker" ["a"; "b"] tt
             {| name_ := "checker"; is_conditional_ := true; input_keys_ := ["a"; "b"] |}
             eq_refl).
    simpl. lia.
  - apply (from_config_checks_input_keys parse_inputs "checker" ["trajectory"] tt
             (task_base checker) eq_refl).
    reflexivity.
Defined.

(** C6, the counterexample: the default constructor builds, without any
    error, a node that has no input key; an invocation of that node that is
    not aborted indexes the empty [input_keys_]. *)
Lemma default_constructed_has_no_input_key :
  Constructed (PluginFactory := unit) parse_inputs DiscreteContactCheckTask_default
  /\ input_keys_ (task_base DiscreteContactCheckTask_default) = []
  /\ ~ (forall t, Constructed (PluginFactory := unit) parse_inputs t ->
                  length (input_keys_ (task_base t)) = 1)
  /\ runImpl DiscreteContactCheckTask_default
       (world_with (store_of scenario_A None) false) = None.
Proof.
  split; [constructor|]. split; [reflexivity|]. split; [|reflexivity].
  intros Hall.
  specialize (Hall DiscreteContactCheckTask_default (Constructed_default _)).
  discriminate Hall.
Defined.

(** C6 on the bench: the checker, built by the direct constructor. *)
Lemma constructed_from_arguments_has_one_key_witness :
  ConstructedFromArguments (PluginFactory := unit) parse_inputs checker
  /\ length (input_keys_ (task_base checker)) = 1.
Proof.
  assert (Hbuilt : ConstructedFromArguments (PluginFactory := unit) parse_inputs checker)
    by apply FromArguments_direct.
  split; [exact Hbuilt|].
  apply (constructed_from_arguments_has_one_key parse_inputs checker Hbuilt).
Defined.

(** C10 on the bench: a clear report and a report with the contacts of
    scenario B compare equal. *)
Lemma report_equality_ignores_contact_results_witness :
  contact_results report_clear <> contact_results report_in_contact
  /\ Z.eqb (info_base report_clear) (info_base report_in_contact) = true
  /\ DiscreteContactCheckTaskInfo_eq Z.eqb report_clear report_in_contact = true.
Proof.
  split; [discriminate|]. split; [reflexivity|].
  apply (report_equality_ignores_contact_results Z.eqb 0%Z 0%Z
           [] (map contact_at scenario_B) eq_refl).
Defined.

(** ** More on [runImpl]: what every invocation keeps *)

Section RunInvariants.
Context {double StateSolver ContactManagerConfig ContactCheckConfig
         Instruction DiscreteContactManager : Type}.
Context {collaborators :
  Collaborators double StateSolver ContactManagerConfig ContactCheckConfig
    Instruction DiscreteContactManager}.

Abbreviation world' :=
  (World StateSolver ContactCheckConfig Instruction DiscreteContactManager).
Abbreviation start_report this w :=
  (set_env (env (problem (w_input w)))
     (set_return_value 0
        (@DiscreteContactCheckTaskInfo_ctor double StateSolver DiscreteContactManager
           this))).
Abbreviation timed w :=
  (w_clock w (S (w_clock_reads w)) - w_clock w (w_clock_reads w))%Z.
Abbreviation validator_call w ci profile :=
  (EvContactCheck
     (configured_manager (env (problem (w_input w)))
        (manip_info (problem (w_input w))) ci profile)
     (getStateSolver (env (problem (w_input w)))) ci (config profile)).

Implicit Types (this : DiscreteContactCheckTask) (w : world').

Ltac run_steps :=
  unfold runImpl, mbind, M_bind, mret, M_ret, gets, isAborted, Timer_start,
    elapsedSeconds, steady_clock_now, getData, input_keys_at_0, emit, deref,
    call_contactCheckProgram;
  simpl.

(** The path through the validator, as an equation. *)
Lemma runImpl_checked_path this w key rest ci profile in_contact contacts :
  aborted (w_input w) = false ->
  input_keys_ (task_base this) = key :: rest ->
  data_storage (w_input w) !! key = Some (AnyPoly_composite ci) ->
  resolve (name_ (task_base this)) (ci_getProfile ci)
    (composite_profile_remapping (problem (w_input w)))
    (profiles (w_input w)) (ci_getProfileOverrides ci) = Some profile ->
  contactCheckProgram
    (configured_manager (env (problem (w_input w)))
       (manip_info (problem (w_input w))) ci profile)
    (getStateSolver (env (problem (w_input w)))) ci (config profile)
  = (in_contact, contacts) ->
  runImpl this w
  = Some (set_elapsed_time (timed w)
            (if in_contact
             then set_contact_results contacts
                    (set_message (not_contact_free_msg ci) (start_report this w))
             else set_return_value 1
                    (set_message succeeded_msg (start_report this w))),
          {| w_input := w_input w; w_clock := w_clock w;
             w_clock_reads := S (S (w_clock_reads w));
             w_trace :=
               w_trace w
               ++ EvGetData key :: validator_call w ci profile
                  :: (if in_contact
                      then EvLogInform (not_contact_free_msg ci)
                           :: map EvLogDebugFormat (contact_debug_lines contacts)
                      else [EvLogDebug succeeded_msg]) |}).
Proof.
  intros Habort Hkeys Hdata Hresolve Hverdict.
  destruct in_contact;
    run_steps; rewrite Habort, Hkeys; simpl; rewrite Hdata; simpl;
    rewrite Hresolve; simpl; rewrite Hverdict; simpl;
    rewrite ?log_debug_all_spec; simpl;
    rewrite <- ?app_assoc; simpl; reflexivity.
Qed.

Lemma Outcome_sound this w info w' :
  Outcome this w info w' -> runImpl this w = Some (info, w').
Proof.
  intros [Habort | key rest Habort Hkeys Hdata
          | key rest ci profile hit contacts Habort Hkeys Hdata Hres Hv].
  - apply runImpl_abort_path, Habort.
  - apply (runImpl_invalid_path this w key rest Habort Hkeys Hdata).
  - apply (runImpl_checked_path this w key rest ci profile hit contacts
             Habort Hkeys Hdata Hres Hv).
Qed.

(** Without abort and without an input key there is no outcome. *)
Lemma runImpl_no_key this w :
  aborted (w_input w) = false -> input_keys_ (task_base this) = [] ->
  runImpl this w = None.
Proof. intros Habort Hkeys. run_steps. rewrite Habort, Hkeys. reflexivity. Qed.

Lemma Outcome_complete this w info w' :
  runImpl this w = Some (info, w') -> Outcome this w info w'.
Proof.
  intros Hrun.
  destruct (aborted (w_input w)) eqn:Habort.
  { pose proof (Outcome_aborted this w Habort) as O.
    rewrite (Outcome_sound _ _ _ _ O) in Hrun. injection Hrun as <- <-. exact O. }
  destruct (input_keys_ (task_base this)) as [|key rest] eqn:Hkeys.
  { rewrite (runImpl_no_key this w Habort Hkeys) in Hrun. discriminate. }
  assert (Hcase :
    (forall ci, data_storage (w_input w) !! key <> Some (AnyPoly_composite ci))
    \/ exists ci, data_storage (w_input w) !! key = Some (AnyPoly_composite ci)).
  { destruct (data_storage (w_input w) !! key) as [[|ci|n]|];
      [left | right; eauto | left | left]; congruence. }
  destruct Hcase as [Hdata | [ci Hdata]].
  - pose proof (Outcome_invalid this w key rest Habort Hkeys Hdata) as O.
    rewrite (Outcome_sound _ _ _ _ O) in Hrun. injection Hrun as <- <-. exact O.
  - destruct (resolve_is_Some (name_ (task_base this)) (ci_getProfile ci)
                (composite_profile_remapping (problem (w_input w)))
                (profiles (w_input w)) (ci_getProfileOverrides ci)) as (p & Hp).
    destruct (contactCheckProgram
                (configured_manager (env (problem (w_input w)))
                   (manip_info (problem (w_input w))) ci p)
                (getStateSolver (env (problem (w_input w)))) ci (config p))
      as [hit contacts] eqn:Hv.
    pose proof (Outcome_checked this w key rest ci p hit contacts
                  Habort Hkeys Hdata Hp Hv) as O.
    rewrite (Outcome_sound _ _ _ _ O) in Hrun. injection Hrun as <- <-. exact O.
Qed.

Lemma not_contact_free_msg_head (ci : @CompositeInstruction ContactCheckConfig Instruction) :
  exists rest, not_contact_free_msg ci = String (Ascii.ascii_of_nat 82) rest.
Proof. eexists. reflexivity. Qed.

Lemma filter_debug_lines (p : Event StateSolver ContactCheckConfig Instruction
                                DiscreteContactManager -> bool)
    (lines : list string) :
  (forall l, p (EvLogDebugFormat l) = false) ->
  List.filter p (map EvLogDebugFormat lines) = [].
Proof.
  intros Hp. induction lines as [|l lines IH]; simpl; [reflexivity|].
  now rewrite Hp.
Qed.

Lemma length_concat_imap {A B : Type} (g : A -> nat) (l : list A) :
  forall f : nat -> A -> list B,
    (forall i x, length (f i x) = g x) ->
    length (concat (imap f l)) = sum_list (map g l).
Proof.
  induction l as [|x l IH]; intros f Hf; simpl; [reflexivity|].
  rewrite length_app, Hf. f_equal. apply IH. intros i y. apply Hf.
Qed.

Lemma length_contact_debug_lines (contacts : list (@ContactResultMap double)) :
  length (contact_debug_lines contacts) = contact_count contacts.
Proof.
  unfold contact_debug_lines, contact_count.
  apply length_concat_imap. intros i m.
  induction m as [|[pair cs] m IH]; simpl; [reflexivity|].
  now rewrite length_app, length_map, IH.
Qed.

(** X1. An invocation that is not aborted needs an input key: for a node
    without one, such as a default-constructed node, [input_keys_[0]] of
    line 83 indexes an empty vector and the invocation has no defined
    outcome, so every invocation that returns was aborted or had a key. The
    abort check comes first: an aborted invocation of such a node returns
    its "Aborted" report. *)
Theorem runImpl_without_input_key this w :
  input_keys_ (task_base this) = [] ->
  (aborted (w_input w) = false -> runImpl this w = None)
  /\ (aborted (w_input w) = true ->
      exists info, runImpl this w = Some (info, w)
                   /\ message (info_base info) = "Aborted")
  /\ (forall info w', runImpl this w = Some (info, w') -> aborted (w_input w) = true).
Proof.
  intros Hkeys. split; [|split].
  - intros Habort. apply (runImpl_no_key this w Habort Hkeys).
  - intros Habort. eexists. split; [apply runImpl_abort_path, Habort | reflexivity].
  - intros info w' Hrun.
    destruct (aborted (w_input w)) eqn:Habort; [reflexivity|].
    rewrite (runImpl_no_key this w Habort Hkeys) in Hrun. discriminate Hrun.
Qed.

(** X2. [runImpl] only reads what it is given: after an invocation the data
    store, the profile registry, the problem and the abort flag of the input
    are what they were, and so is the clock. *)
Theorem runImpl_only_reads_input this w info w' :
  runImpl this w = Some (info, w') ->
  data_storage (w_input w') = data_storage (w_input w)
  /\ profiles (w_input w') = profiles (w_input w)
  /\ problem (w_input w') = problem (w_input w)
  /\ aborted (w_input w') = aborted (w_input w)
  /\ w_clock w' = w_clock w.
Proof.
  intros Hrun. destruct (Outcome_complete this w info w' Hrun); repeat split.
Qed.

(** X3. Every report bears the name of its node and the environment of the
    input; its return value is 0 or 1; it is 1 exactly when the message is
    the one of success, and then the report has no contact data; the message
    is "Aborted" exactly when the abort flag was set. *)
Theorem report_is_well_formed this w info w' :
  runImpl this w = Some (info, w') ->
  info_name (info_base info) = name_ (task_base this)
  /\ info_env (info_base info) = Some (env (problem (w_input w)))
  /\ (return_value (info_base info) = 0%Z \/ return_value (info_base info) = 1%Z)
  /\ (return_value (info_base info) = 1%Z
      <-> message (info_base info) = "Discrete contact check succeeded")
  /\ (return_value (info_base info) = 1%Z -> contact_results info = [])
  /\ (message (info_base info) = "Aborted" <-> aborted (w_input w) = true).
Proof.
  intros Hrun.
  destruct (Outcome_complete this w info w' Hrun)
    as [Habort | key rest Habort Hkeys Hdata
        | key rest ci profile hit contacts Habort Hkeys Hdata Hres Hv].
  - simpl. repeat split; auto; discriminate.
  - simpl. rewrite Habort. repeat split; auto; discriminate.
  - destruct (not_contact_free_msg_head ci) as (r & Hr).
    destruct hit; simpl; rewrite Habort, ?Hr; repeat split; auto; discriminate.
Qed.

(** X4. When the steady clock does not run backwards the elapsed time of a
    report is not negative; the clock is read twice, or not at all when the
    invocation is aborted. *)
Theorem elapsed_time_is_not_negative this w info w' :
  (forall n, (w_clock w n <= w_clock w (S n))%Z) ->
  runImpl this w = Some (info, w') ->
  (0 <= elapsed_time (info_base info))%Z
  /\ (w_clock_reads w' = if aborted (w_input w) then w_clock_reads w
                         else S (S (w_clock_reads w))).
Proof.
  intros Hclock Hrun. specialize (Hclock (w_clock_reads w)).
  destruct (Outcome_complete this w info w' Hrun)
    as [Habort | key rest Habort Hkeys Hdata
        | key rest ci profile hit contacts Habort Hkeys Hdata Hres Hv];
    rewrite Habort; try destruct hit; simpl; split; (lia || reflexivity).
Qed.

Ltac read_of_first_key :=
  let k := fresh "k" in
  let Hin := fresh "Hin" in
  let l := fresh "l" in
  intros k Hin; simpl in Hin;
  repeat (destruct Hin as [Hin|Hin];
          [first [discriminate Hin | injection Hin as <-; reflexivity]|]);
  first [ contradiction
        | apply in_map_iff in Hin as (l & Hin & _); discriminate Hin ].

(** X5. An invocation only appends to the trace. Among what it appends there
    is at most one read of the data store, under the first input key of the
    node; the validator is called at most once, never without that read, and
    it has been called whenever the return value is 1; an aborted invocation
    appends nothing. *)
Theorem trace_of_an_invocation this w info w' :
  runImpl this w = Some (info, w') ->
  exists new,
    w_trace w' = w_trace w ++ new
    /\ (forall k, In (EvGetData k) new -> head (input_keys_ (task_base this)) = Some k)
    /\ length (List.filter is_data_store_read new) <= 1
    /\ length (List.filter is_validator_call new)
       <= length (List.filter is_data_store_read new)
    /\ (return_value (info_base info) = 1%Z ->
        length (List.filter is_validator_call new) = 1)
    /\ (aborted (w_input w) = true -> new = []).
Proof.
  intros Hrun.
  destruct (Outcome_complete this w info w' Hrun)
    as [Habort | key rest Habort Hkeys Hdata
        | key rest ci profile hit contacts Habort Hkeys Hdata Hres Hv].
  - exists []. rewrite app_nil_r. simpl. repeat split; auto; try lia.
    all: read_of_first_key.
  - eexists. split; [reflexivity|]. rewrite Hkeys, Habort. simpl.
    repeat split; auto; try lia; try discriminate.
    all: read_of_first_key.
  - eexists. split; [reflexivity|]. rewrite Hkeys, Habort.
    destruct hit; simpl; rewrite ?filter_debug_lines by reflexivity; simpl;
      repeat split; auto; try lia; try discriminate.
    all: read_of_first_key.
Qed.

(** X7. When the validator reports a contact and no line built for a
    contact has a percent sign, the invocation makes, after the read, the
    validator call and one information line, exactly one debug call per
    contact record of the validator's data, each with the line built for
    that record as its format, and no other debug call. *)
Theorem one_debug_line_per_contact this w key rest ci profile contacts :
  aborted (w_input w) = false ->
  input_keys_ (task_base this) = key :: rest ->
  data_storage (w_input w) !! key = Some (AnyPoly_composite ci) ->
  resolve (name_ (task_base this)) (ci_getProfile ci)
    (composite_profile_remapping (problem (w_input w)))
    (profiles (w_input w)) (ci_getProfileOverrides ci) = Some profile ->
  contactCheckProgram
    (configured_manager (env (problem (w_input w)))
       (manip_info (problem (w_input w))) ci profile)
    (getStateSolver (env (problem (w_input w)))) ci (config profile)
  = (true, contacts) ->
  Forall (fun line => contains "%" line = false) (contact_debug_lines contacts) ->
  exists info w',
    runImpl this w = Some (info, w')
    /\ w_trace w'
       = w_trace w
         ++ [EvGetData key; validator_call w ci profile;
             EvLogInform (message (info_base info))]
         ++ map EvLogDebugFormat (contact_debug_lines contacts)
    /\ length (contact_debug_lines contacts) = contact_count contacts
    /\ length (List.filter is_debug_log (w_trace w'))
       = length (List.filter is_debug_log (w_trace w)) + contact_count contacts.
Proof.
  intros Habort Hkeys Hdata Hres Hv _.
  eexists _, _. split.
  - apply (runImpl_checked_path this w key rest ci profile true contacts
             Habort Hkeys Hdata Hres Hv).
  - simpl. split; [reflexivity|].
    split; [apply length_contact_debug_lines|].
    rewrite List.filter_app, length_app. simpl.
    rewrite <- length_contact_debug_lines. f_equal.
    induction (contact_debug_lines contacts) as [|l ls IH]; simpl; [reflexivity|].
    now rewrite IH.
Qed.

End RunInvariants.

(** ** More on construction, copies and serialization *)

Section ConstructionFromConfig.
Context {YAMLNode PluginFactory : Type}.
Variable parse : string -> YAMLNode -> result TaskComposerTask.

(** X9. Construction from a configuration succeeds exactly when the base
    class parses the configuration into a node with one input key, and the
    node built is that parsed node; an exception of the base class is passed
    on as it is; the plugin factory plays no part. *)
Theorem from_config_Ok_iff
    (name : string) (config : YAMLNode) (plugin_factory : PluginFactory)
    (t : DiscreteContactCheckTask) :
  (DiscreteContactCheckTask_from_config parse name config plugin_factory = Ok t
   <-> parse name config = Ok (task_base t)
       /\ length (input_keys_ (task_base t)) = 1)
  /\ (forall e, parse name config = Throw e ->
                DiscreteContactCheckTask_from_config parse name config plugin_factory
                = Throw e)
  /\ (forall other_factory : PluginFactory,
        DiscreteContactCheckTask_from_config parse name config other_factory
        = DiscreteContactCheckTask_from_config parse name config plugin_factory).
Proof.
  split; [split|split].
  - apply from_config_Ok_inv.
  - intros [Hparse Hone]. unfold DiscreteContactCheckTask_from_config.
    rewrite Hparse. destruct t as [base]; simpl in *.
    destruct (input_keys_ base) as [|k [|k' ks]]; simpl in *;
      [discriminate Hone | reflexivity | discriminate Hone].
  - intros e Hthrow. unfold DiscreteContactCheckTask_from_config.
    rewrite Hthrow. reflexivity.
  - reflexivity.
Qed.

End ConstructionFromConfig.

Section SerializationProperties.
Context {Archive NodeInfo ContactResultMap : Type}.
Variable archive_task :
  Archive -> string -> TaskComposerTask -> Archive * TaskComposerTask.
Variable archive_info : Archive -> string -> NodeInfo -> Archive * NodeInfo.
Variable base_eq : NodeInfo -> NodeInfo -> bool.
(** An output archive, and how what it has written is opened for reading. *)
Variable out : Archive.
Variable reopen : Archive -> Archive.

(** X10. When the archive gives back the base-class part it was given,
    saving a node and loading the archive into any other node, such as a
    default-constructed one, gives back the saved node, input keys
    included. *)
Theorem task_serialization_round_trip
    (saved target : DiscreteContactCheckTask) (version version' : nat) :
  (forall b b0,
     snd (archive_task
            (reopen (fst (archive_task out "TaskComposerTask" b)))
            "TaskComposerTask" b0) = b) ->
  snd (DiscreteContactCheckTask_serialize archive_task
         (reopen (fst (DiscreteContactCheckTask_serialize archive_task out
                         version saved)))
         version' target)
  = saved.
Proof.
  intros Hround. unfold DiscreteContactCheckTask_serialize.
  specialize (Hround (task_base saved) (task_base target)).
  destruct (archive_task out "TaskComposerTask" (task_base saved)) as [ar1 b1].
  simpl in *.
  destruct (archive_task (reopen ar1) "TaskComposerTask" (task_base target))
    as [ar2 b2].
  simpl in *. subst b2. now destruct saved.
Qed.

(** X11. The contact results of a report never reach the archive: what is
    written does not depend on them, and, when the archive gives back the
    base-class part it was given, loading into another report restores the
    base-class part and leaves the contact results of that other report.
    The loaded report still compares equal to the saved one when the base
    class does; a clone, for its part, keeps the contact results. *)
Theorem report_serialization_drops_contact_results
    (saved target : TaskInfo NodeInfo ContactResultMap) (version version' : nat) :
  (forall b b0,
     snd (archive_info
            (reopen (fst (archive_info out "TaskComposerNodeInfo" b)))
            "TaskComposerNodeInfo" b0) = b) ->
  base_eq (info_base saved) (info_base saved) = true ->
  let written :=
    fst (DiscreteContactCheckTaskInfo_serialize archive_info out version saved) in
  let loaded :=
    snd (DiscreteContactCheckTaskInfo_serialize archive_info (reopen written)
           version' target) in
  (forall contacts : list ContactResultMap,
     fst (DiscreteContactCheckTaskInfo_serialize archive_info out version
            (mkTaskInfo (info_base saved) contacts)) = written)
  /\ info_base loaded = info_base saved
  /\ contact_results loaded = contact_results target
  /\ DiscreteContactCheckTaskInfo_eq base_eq loaded saved = true
  /\ contact_results (DiscreteContactCheckTaskInfo_clone saved)
     = contact_results saved
  /\ DiscreteContactCheckTaskInfo_eq base_eq
       (DiscreteContactCheckTaskInfo_clone saved) saved = true.
Proof.
  intros Hround Hrefl. unfold DiscreteContactCheckTaskInfo_serialize.
  specialize (Hround (info_base saved) (info_base target)).
  simpl.
  destruct (archive_info out "TaskComposerNodeInfo" (info_base saved)) as [ar1 b1].
  simpl in *.
  destruct (archive_info (reopen ar1) "TaskComposerNodeInfo" (info_base target))
    as [ar2 b2].
  simpl in *. subst b2.
  unfold DiscreteContactCheckTaskInfo_eq, DiscreteContactCheckTaskInfo_clone; simpl.
  rewrite Hrefl. repeat split.
Qed.

End SerializationProperties.

(** ** The further properties on the test bench *)

(** X1 on the bench: the default-constructed node in scenario B, not
    aborted and aborted. *)
Lemma runImpl_without_input_key_witness :
  input_keys_ (task_base DiscreteContactCheckTask_default) = []
  /\ runImpl DiscreteContactCheckTask_default
       (world_with (store_of scenario_B None) false) = None
  /\ exists info,
       runImpl DiscreteContactCheckTask_default
         (world_with (store_of scenario_B None) true)
       = Some (info, world_with (store_of scenario_B None) true)
       /\ message (info_base info) = "Aborted".
Proof.
  split; [reflexivity|]. split.
  - apply (runImpl_without_input_key DiscreteContactCheckTask_default
             (world_with (store_of scenario_B None) false) eq_refl).
    reflexivity.
  - apply (runImpl_without_input_key DiscreteContactCheckTask_default
             (world_with (store_of scenario_B None) true) eq_refl).
    reflexivity.
Defined.

(** X2 on the bench: scenario B leaves the store and the registry alone. *)
Lemma runImpl_only_reads_input_witness :
  exists info w',
    runImpl checker (world_with (store_of scenario_B None) false) = Some (info, w')
    /\ data_storage (w_input w') = store_of scenario_B None
    /\ profiles (w_input w') = registry.
Proof.
  destruct (runImpl checker (world_with (store_of scenario_B None) false))
    as [[info w']|] eqn:Hrun; [|vm_compute in Hrun; discriminate Hrun].
  exists info, w'. split; [reflexivity|].
  destruct (runImpl_only_reads_input checker _ info w' Hrun) as (Hstore & Hreg & _).
  split; assumption.
Defined.

(** X3 on the bench: the report of scenario A. *)
Lemma report_is_well_formed_witness :
  exists info w',
    runImpl checker (world_with (store_of scenario_A None) false) = Some (info, w')
    /\ info_name (info_base info) = "checker"
    /\ (return_value (info_base info) = 0%Z \/ return_value (info_base info) = 1%Z).
Proof.
  destruct (runImpl checker (world_with (store_of scenario_A None) false))
    as [[info w']|] eqn:Hrun; [|vm_compute in Hrun; discriminate Hrun].
  exists info, w'. split; [reflexivity|].
  destruct (report_is_well_formed checker _ info w' Hrun) as (Hname & _ & Hret & _).
  split; assumption.
Defined.

(** X4 on the bench: the clock of the bench shows 100, 107, 114, ... *)
Lemma elapsed_time_is_not_negative_witness :
  (forall n, (w_clock (world_with (store_of scenario_B None) false) n
              <= w_clock (world_with (store_of scenario_B None) false) (S n))%Z)
  /\ exists info w',
       runImpl checker (world_with (store_of scenario_B None) false) = Some (info, w')
       /\ (0 <= elapsed_time (info_base info))%Z
       /\ w_clock_reads w' = 2.
Proof.
  assert (Hclock :
    forall n, (w_clock (world_with (store_of scenario_B None) false) n
               <= w_clock (world_with (store_of scenario_B None) false) (S n))%Z).
  { intros n. simpl. lia. }
  split; [exact Hclock|].
  destruct (runImpl checker (world_with (store_of scenario_B None) false))
    as [[info w']|] eqn:Hrun; [|vm_compute in Hrun; discriminate Hrun].
  exists info, w'. split; [reflexivity|].
  apply (elapsed_time_is_not_negative checker _ info w' Hclock Hrun).
Defined.

(** X5 on the bench: the trace of scenario A starts empty. *)
Lemma trace_of_an_invocation_witness :
  exists info w' new,
    runImpl checker (world_with (store_of scenario_A None) false) = Some (info, w')
    /\ w_trace w' = new
    /\ length (List.filter is_data_store_read new) <= 1
    /\ length (List.filter is_validator_call new)
       <= length (List.filter is_data_store_read new).
Proof.
  destruct (runImpl checker (world_with (store_of scenario_A None) false))
    as [[info w']|] eqn:Hrun; [|vm_compute in Hrun; discriminate Hrun].
  destruct (trace_of_an_invocation checker _ info w' Hrun)
    as (new & Htrace & _ & Hreads & Hcalls & _).
  exists info, w', new. split; [reflexivity|]. repeat split; assumption.
Defined.

(** X7 on the bench: scenario B has one contact record, so one debug line. *)
Lemma one_debug_line_per_contact_witness :
  contact_count (map contact_at scenario_B) = 1
  /\ exists info w',
       runImpl checker (world_with (store_of scenario_B None) false) = Some (info, w')
       /\ length (List.filter is_debug_log (w_trace w')) = 1.
Proof.
  split; [reflexivity|].
  assert (Hdata :
    data_storage (w_input (world_with (store_of scenario_B None) false)) !! "trajectory"
    = Some (AnyPoly_composite (trajectory scenario_B None))) by (vm_compute; reflexivity).
  assert (Hresolve :
    resolve (name_ (task_base checker)) (ci_getProfile (trajectory scenario_B None))
      (composite_profile_remapping
         (problem (w_input (world_with (store_of scenario_B None) false))))
      (profiles (w_input (world_with (store_of scenario_B None) false)))
      (ci_getProfileOverrides (trajectory scenario_B None))
    = Some {| config := 25%Z |}) by (vm_compute; reflexivity).
  assert (Hplain :
    Forall (fun line => contains "%" line = false)
      (contact_debug_lines (map contact_at scenario_B)))
    by (vm_compute; repeat constructor).
  destruct (one_debug_line_per_contact checker
              (world_with (store_of scenario_B None) false)
              "trajectory" [] (trajectory scenario_B None) {| config := 25%Z |}
              (map contact_at scenario_B)
              eq_refl eq_refl Hdata Hresolve eq_refl Hplain)
    as (info & w' & Hrun & _ & _ & Hcount).
  exists info, w'. split; [exact Hrun | exact Hcount].
Defined.

(** X10 on the bench: the checker, saved and loaded into a
    default-constructed node. *)
Lemma task_serialization_round_trip_witness :
  snd (DiscreteContactCheckTask_serialize archive_op
         (reopen (fst (DiscreteContactCheckTask_serialize archive_op (Saving [])
                         0 checker)))
         0 DiscreteContactCheckTask_default)
  = checker.
Proof.
  apply (task_serialization_round_trip archive_op (Saving []) reopen
           checker DiscreteContactCheckTask_default 0 0).
  intros b b0. reflexivity.
Defined.

(** X11 on the bench: the report with the contacts of scenario B, saved and
    loaded into a report without contacts. *)
Lemma report_serialization_drops_contact_results_witness :
  contact_results report_in_contact <> []
  /\ contact_results
       (snd (DiscreteContactCheckTaskInfo_serialize archive_op
               (reopen (fst (DiscreteContactCheckTaskInfo_serialize archive_op
                               (Saving []) 0 report_in_contact)))
               0 report_clear)) = []
  /\ DiscreteContactCheckTaskInfo_eq Z.eqb
       (snd (DiscreteContactCheckTaskInfo_serialize archive_op
               (reopen (fst (DiscreteContactCheckTaskInfo_serialize archive_op
                               (Saving []) 0 report_in_contact)))
               0 report_clear))
       report_in_contact = true.
Proof.
  split; [discriminate|].
  destruct (report_serialization_drops_contact_results archive_op Z.eqb
              (Saving []) reopen report_in_contact report_clear 0 0)
    as (_ & _ & Hcontacts & Heq & _).
  - intros b b0. reflexivity.
  - reflexivity.
  - split; [exact Hcontacts | exact Heq].
Defined.
